(** * PostgresRecordProvider (src/index.ts): a shallow embedding

    The provider is a thin adapter over a pooled query executor
    ([pool.query(text, params)], package [pg]).  Every public method is
    embedded as a computation in a small state-and-exception monad whose
    state holds the pool, the statements issued so far, the console and
    the state of the identifier generator.

    The class embedded is the one that has [getUserData] and [deleteAll]
    (the second [PostgresRecordProvider] of the file), whose
    [createOnMissingTable] creates the table IF NOT EXISTS.

    Layout:
    - [Js]        JSON values, plain objects, the JavaScript coercions used;
    - [Sql]       the statements the source issues and what a query returns;
    - [Provider]  the methods of the class, generic in the pool;
    - [Pg]        a reference semantics of the statements (the engine);
    - [Script]    a pool that replays canned answers;
    - theorems. *)

From Stdlib Require Import ZArith Lia.
From stdpp Require Import base option list strings pretty gmap.

Local Open Scope string_scope.

#[local] Set Warnings "-register-all".

(** ** JavaScript values *)

Module Js.

(** Documents are JSON documents.  A key that is absent from an object
    stands for JavaScript's [undefined]; [option Json] is therefore the type
    of a property read, [None] being [undefined].  Numbers are the integral
    ones. *)
Inductive Json : Type :=
| JNull
| JBool (b : bool)
| JNum (n : Z)
| JStr (s : string)
| JArr (items : list Json)
| JObj (fields : list (string * Json)).

(** A plain object: its own enumerable properties, in insertion order. *)
Definition Obj : Type := list (string * Json).

(** [o.k] *)
Fixpoint obj_get (k : string) (o : Obj) : option Json :=
  match o with
  | [] => None
  | (k', v) :: rest => if String.eqb k' k then Some v else obj_get k rest
  end.

(** [o.k = v]: an existing property keeps its place, a new one goes last. *)
Fixpoint obj_set (k : string) (v : Json) (o : Obj) : Obj :=
  match o with
  | [] => [(k, v)]
  | (k', v') :: rest =>
      if String.eqb k' k then (k', v) :: rest else (k', v') :: obj_set k v rest
  end.

(** [!!x] *)
Definition truthy (x : option Json) : bool :=
  match x with
  | None => false
  | Some JNull => false
  | Some (JBool b) => b
  | Some (JNum n) => negb (n =? 0)%Z
  | Some (JStr s) => negb (String.eqb s "")
  | Some (JArr _) => true
  | Some (JObj _) => true
  end.

(** [typeof x === 'string'] *)
Definition is_string (x : option Json) : bool :=
  match x with
  | Some (JStr _) => true
  | _ => false
  end.

(** [Array.prototype.join(",")] over already converted items. *)
Fixpoint join_comma (parts : list string) : string :=
  match parts with
  | [] => ""
  | [p] => p
  | p :: rest => p ++ "," ++ join_comma rest
  end.

(** [String(x)], the conversion [+] applies to a non-string operand.
    Inside an array [null] prints as the empty string. *)
Fixpoint to_string (x : Json) : string :=
  match x with
  | JNull => "null"
  | JBool true => "true"
  | JBool false => "false"
  | JNum n => pretty n
  | JStr s => s
  | JArr items =>
      join_comma
        (map (fun i => match i with JNull => "" | _ => to_string i end) items)
  | JObj _ => "[object Object]"
  end.

Definition to_string_opt (x : option Json) : string :=
  match x with
  | None => "undefined"
  | Some j => to_string j
  end.

(** What a column of a result row holds once [pg] has decoded it: a JSON
    value ([jsonb] columns; text columns give [JStr] or, for SQL NULL,
    [JNull]), or a string that is the engine's text rendering of a JSON
    value that is not itself a string (the output of [->>]). *)
Inductive Cell : Type :=
| Plain (j : Json)
| Rendered (j : Json).

Definition Row : Type := list (string * Cell).

(** [row.k] *)
Fixpoint row_get (k : string) (r : Row) : option Cell :=
  match r with
  | [] => None
  | (k', v) :: rest => if String.eqb k' k then Some v else row_get k rest
  end.

(** [prev.concat(cur)]: an array argument is spread, anything else is
    appended as one element. *)
Definition concat_js (prev : list Json) (cur : Json) : list Json :=
  match cur with
  | JArr items => prev ++ items
  | other => prev ++ [other]
  end.

End Js.
Export Js.

(** ** Statements and results *)

Module Sql.

Definition dquote : string := String (Ascii.ascii_of_nat 34) "".

(** The statements of src/index.ts.  The collection name is spliced into
    the statement text, the other arguments are the bound parameters, in
    the order of the source's parameter array. *)
Inductive Stmt : Type :=
| SelectAll (c : string)
| SelectById (c : string) (id : string)
| Insert (c : string) (json : Obj) (id : option Json)
| Upsert (c : string) (json : Obj) (id : option Json)
| Update (c : string) (json : Obj) (id : option Json)
| Delete (c : string) (id : string)
| CreateTableIfNotExists (c : string)
| DropAllTables
| SelectGroups (member : string)
| SelectRoles (member : string) (ids : list Json)
| SelectPermissions (ids : list Json).

(** The text handed to [pool.query] for each statement (the line breaks
    and the comment of the DO block are left out). *)
Definition statement_text (q : Stmt) : string :=
  match q with
  | SelectAll c => "SELECT json FROM " ++ c
  | SelectById c _ => "SELECT json FROM " ++ c ++ " WHERE _id = $1"
  | Insert c _ _ => "INSERT INTO " ++ c ++ " (json, _id) VALUES ($1, $2)"
  | Upsert c _ _ =>
      "INSERT INTO " ++ c ++ " (json, _id) VALUES ($1, $2) ON CONFLICT ON CONSTRAINT "
      ++ c ++ "__id_key DO UPDATE SET json = $1"
  | Update c _ _ => "UPDATE " ++ c ++ " SET json = $1 WHERE _id = $2"
  | Delete c _ => "DELETE FROM " ++ c ++ " WHERE _id = $1"
  | CreateTableIfNotExists c =>
      "CREATE TABLE IF NOT EXISTS " ++ c
      ++ " (ID serial NOT NULL PRIMARY KEY, _id uuid NOT NULL UNIQUE, json jsonb NOT NULL)"
  | DropAllTables =>
      "DO $$ DECLARE r RECORD; BEGIN "
      ++ "FOR r IN (SELECT tablename FROM pg_tables WHERE schemaname = 'public') LOOP "
      ++ "EXECUTE 'DROP TABLE IF EXISTS ' || quote_ident(r.tablename) || ' CASCADE'; "
      ++ "END LOOP; END $$;"
  | SelectGroups _ =>
      "SELECT json ->> '_id' AS id, json ->> 'name' AS name, json ->> 'roles' as roles "
      ++ "FROM groups WHERE json->'members' @> $1"
  | SelectRoles _ _ =>
      "SELECT json ->> 'name' AS role, json ->> 'permissions' AS permissions "
      ++ "FROM roles WHERE json->'users' @> $1 OR _id = ANY ($2)"
  | SelectPermissions _ => "SELECT json ->> 'name' AS name FROM permissions WHERE _id = ANY ($1)"
  end.

(** [QueryResult] of [pg]. *)
Record QueryResult : Type := mkResult {
  rowCount : option nat;
  rows : list Row;
  command : string;
  oid : nat;
  fields : list string
}.

(** The error a query is rejected with; [code] is the SQLSTATE when the
    engine produced the failure. *)
Record PgError : Type := mkPgError {
  code : option string;
  message : string
}.

(** A pool: a state and what [pool.query] answers in it. *)
Class Pool (S : Type) : Type :=
  pool_query : S -> Stmt -> S * (PgError + QueryResult).

(** [uuid.v4()]: the [n]-th identifier the generator hands out. *)
Class Uuid : Type := uuid_v4 : nat -> string.

(** [JSON.parse] on a text that does not come from the engine's renderer. *)
Class JsonText : Type := parse_text : string -> option Json.

End Sql.
Export Sql.

(** ** The provider *)

Module Provider.

(** Whatever a method can throw. *)
Inductive Exn : Type :=
| PgFail (e : PgError)
| ArgumentError (msg : string)
| NotFoundError (msg : string)
| ValidationError (msg : string)
| TypeError (msg : string)
| SyntaxError (msg : string).

(** [ex.code] *)
Definition exn_code (ex : Exn) : option string :=
  match ex with
  | PgFail e => code e
  | _ => None
  end.

Definition code_is (c : string) (x : option string) : bool :=
  match x with
  | Some c' => String.eqb c' c
  | None => false
  end.

Definition isMissingTableError (ex : Exn) : bool := code_is "42P01" (exn_code ex).

Definition isAlreadyExistsError (ex : Exn) : bool := code_is "23505" (exn_code ex).

(** What the constructor builds: the configuration of a pool that has not
    connected yet. *)
Record PoolConfig : Type := mkPoolConfig { connectionString : string }.

(** The groups of [getUserData]'s answer. *)
Record GroupRef : Type := mkGroupRef { _id : option Cell; name : option Cell }.

Record UserData : Type := mkUserData {
  groups : list GroupRef;
  roles : list (option Cell);
  permissions : list (option Cell)
}.

Section Methods.
Context {S : Type} {P : Pool S} {U : Uuid} {J : JsonText}.

(** The state a method runs in: the pool, the statements handed to it so
    far (oldest first), the lines written with [console.warn], and the
    number of identifiers generated. *)
Record World : Type := mkWorld {
  pool : S;
  issued : list Stmt;
  console : list string;
  rng : nat
}.

Definition M (A : Type) : Type := World -> World * (Exn + A).

Definition ret {A} (a : A) : M A := fun w => (w, inr a).

Definition throw {A} (ex : Exn) : M A := fun w => (w, inl ex).

Definition bind {A B} (m : M A) (k : A -> M B) : M B :=
  fun w =>
    match m w with
    | (w', inr a) => k a w'
    | (w', inl ex) => (w', inl ex)
    end.

(** [p.catch(h)] and [try { p } catch (ex) { h }] *)
Definition catch {A} (m : M A) (h : Exn -> M A) : M A :=
  fun w =>
    match m w with
    | (w', inr a) => (w', inr a)
    | (w', inl ex) => h ex w'
    end.

Notation "x <- m ;; k" := (bind m (fun x => k))
  (at level 100, m at next level, right associativity).

(** [this.pool.query(...)] *)
Definition query (q : Stmt) : M QueryResult :=
  fun w =>
    let '(s', answer) := pool_query (pool w) q in
    let w' := {| pool := s'; issued := issued w ++ [q]; console := console w; rng := rng w |} in
    match answer with
    | inl e => (w', inl (PgFail e))
    | inr r => (w', inr r)
    end.

Definition console_warn (line : string) : M unit :=
  fun w =>
    ({| pool := pool w; issued := issued w; console := console w ++ [line]; rng := rng w |},
     inr tt).

Definition uuid_next : M string :=
  fun w =>
    ({| pool := pool w; issued := issued w; console := console w; rng := Datatypes.S (rng w) |},
     inr (uuid_v4 (rng w))).

(** [JSON.parse(x)]: [x] is converted to a string and parsed. *)
Definition JSON_parse (x : option Cell) : M Json :=
  match x with
  | Some (Rendered j) => ret j
  | Some (Plain j) =>
      match parse_text (to_string j) with
      | Some v => ret v
      | None => throw (SyntaxError "Unexpected token in JSON")
      end
  | None =>
      match parse_text "undefined" with
      | Some v => ret v
      | None => throw (SyntaxError "Unexpected token in JSON")
      end
  end.

(** [xs.map(f)] for an [f] that may throw. *)
Fixpoint mapM {A B} (f : A -> M B) (xs : list A) : M (list B) :=
  match xs with
  | [] => ret []
  | x :: rest => y <- f x ;; ys <- mapM f rest ;; ret (y :: ys)
  end.

(** [constructor(connectionString)] *)
Definition constructor (connectionString : option Json) : M PoolConfig :=
  match connectionString with
  | None | Some JNull => throw (ArgumentError "Must provide a connectionString")
  | Some v =>
      if negb (is_string (Some v))
      then throw (ArgumentError ("The provided connectionString is invalid: " ++ to_string v))
      else ret {| connectionString := to_string v |}
  end.

Definition emptyOnMissingTable (ex : Exn) : M QueryResult :=
  if negb (isMissingTableError ex) then throw ex
  else ret {| rowCount := Some 0; rows := []; command := ""; oid := 0; fields := [] |}.

Definition createOnMissingTable (ex : Exn) (collectionName : string)
    (query_again : M QueryResult) : M QueryResult :=
  if negb (isMissingTableError ex) then throw ex
  else
    _ <- catch (_ <- query (CreateTableIfNotExists collectionName) ;; ret tt)
          (fun ex =>
             if code_is "23505" (exn_code ex) then
               console_warn ("Possible race condition error on creation of table "
                             ++ collectionName ++ ". It should be safe to continue.")
             else throw ex) ;;
    query_again.

Definition getAll (collectionName : string) : M (list (option Cell)) :=
  result <- catch (query (SelectAll collectionName)) emptyOnMissingTable ;;
  ret (map (row_get "json") (rows result)).

Definition not_found (identifier collectionName : string) : Exn :=
  NotFoundError ("The record " ++ identifier ++ " in " ++ collectionName ++ " does not exist.").

Definition get (collectionName identifier : string) : M (option Cell) :=
  result <- catch (query (SelectById collectionName identifier)) emptyOnMissingTable ;;
  match rowCount result with
  | Some 0 => throw (not_found identifier collectionName)
  | _ =>
      match rows result with
      | [] => throw (TypeError "Cannot read properties of undefined (reading 'json')")
      | row :: _ => ret (row_get "json" row)
      end
  end.

Definition already_exists (id : option Json) (collectionName : string) : Exn :=
  ValidationError ("The record " ++ to_string_opt id ++ " in " ++ collectionName
                   ++ " already exists.").

Definition create (collectionName : string) (record : Obj) : M Obj :=
  record <- (if negb (truthy (obj_get "_id" record))
             then u <- uuid_next ;; ret (obj_set "_id" (JStr u) record)
             else ret record) ;;
  _ <- catch
         (let query_ := query (Insert collectionName record (obj_get "_id" record)) in
          catch query_ (fun ex => createOnMissingTable ex collectionName query_))
         (fun ex =>
            if isAlreadyExistsError ex
            then throw (already_exists (obj_get "_id" record) collectionName)
            else throw ex) ;;
  ret record.

Definition update (collectionName identifier : string) (record : Obj) (upsert : bool)
    : M Obj :=
  let record := obj_set "_id" (JStr identifier) record in
  _ <- (if upsert then
          let query_ := query (Upsert collectionName record (obj_get "_id" record)) in
          _ <- catch query_ (fun ex => createOnMissingTable ex collectionName query_) ;;
          ret tt
        else
          result <- catch (query (Update collectionName record (obj_get "_id" record)))
                      emptyOnMissingTable ;;
          match rowCount result with
          | Some 0 => throw (not_found identifier collectionName)
          | _ => ret tt
          end) ;;
  ret record.

Definition getUserData (userId : string) : M UserData :=
  groups <- query (SelectGroups (dquote ++ userId ++ dquote)) ;;
  parsed <- mapM (fun row => JSON_parse (row_get "roles" row)) (rows groups) ;;
  let rolesIds := fold_left concat_js parsed [] in
  roles <- query (SelectRoles (dquote ++ userId ++ dquote) rolesIds) ;;
  parsed <- mapM (fun row => JSON_parse (row_get "permissions" row)) (rows roles) ;;
  let permissionIds := fold_left concat_js parsed [] in
  permissions <- query (SelectPermissions permissionIds) ;;
  ret {| groups := map (fun row => {| _id := row_get "id" row; name := row_get "name" row |})
                     (rows groups);
         roles := map (row_get "role") (rows roles);
         permissions := map (row_get "name") (rows permissions) |}.

Definition delete (collectionName identifier : string) : M unit :=
  _ <- query (Delete collectionName identifier) ;; ret tt.

Definition deleteAll : M unit :=
  _ <- query DropAllTables ;; ret tt.

End Methods.

Arguments World : clear implicits.
Arguments M : clear implicits.

End Provider.
Export Provider.

(** ** The engine

    A reference semantics of the statements above, for one schema.  A table
    is the list of its rows in insertion order, a row being the [_id] column
    and the [json] column (the [ID serial] column is never read).

    Outside the model: the syntax check and the case folding of the [uuid]
    column type (identifiers are compared as texts), quoting and case
    folding of table names, escape sequences inside a [jsonb] string
    parameter (such a text is answered with 22P02), and array parameters
    that hold something else than strings (such elements match no row). *)

Module Pg.

Definition Table : Type := list (string * Obj).

Abbreviation DB := (gmap string Table).

Definition undefined_table (c : string) : PgError :=
  {| code := Some "42P01"; message := "relation " ++ c ++ " does not exist" |}.

Definition unique_violation (c : string) : PgError :=
  {| code := Some "23505";
     message := "duplicate key value violates unique constraint " ++ c ++ "__id_key" |}.

Definition not_null_violation : PgError :=
  {| code := Some "23502"; message := "null value in column _id violates not-null constraint" |}.

Definition invalid_text (what : string) : PgError :=
  {| code := Some "22P02"; message := "invalid input syntax for type " ++ what |}.

Definition selected (cols : list string) (rs : list Row) : QueryResult :=
  {| rowCount := Some (length rs); rows := rs; command := "SELECT"; oid := 0; fields := cols |}.

Definition affected (cmd : string) (n : nat) : QueryResult :=
  {| rowCount := Some n; rows := []; command := cmd; oid := 0; fields := [] |}.

Definition utility (cmd : string) : QueryResult :=
  {| rowCount := None; rows := []; command := cmd; oid := 0; fields := [] |}.

(** How a bound parameter reads in the [_id] column. *)
Inductive IdParam : Type :=
| IdNull
| IdText (s : string)
| IdOther.

Definition id_param (x : option Json) : IdParam :=
  match x with
  | None | Some JNull => IdNull
  | Some (JStr s) => IdText s
  | Some _ => IdOther
  end.

Definition has_id (id : string) (row : string * Obj) : bool := String.eqb row.1 id.

(** The rows [WHERE _id = id] keeps. *)
Definition filter_rows (id : string) (t : Table) : Table := List.filter (has_id id) t.

Definition json_row (row : string * Obj) : Row := [("json", Plain (JObj row.2))].

(** [json ->> key]: the value as text, SQL NULL when it is missing or null. *)
Definition arrow_text (key : string) (doc : Obj) : Cell :=
  match obj_get key doc with
  | None | Some JNull => Plain JNull
  | Some (JStr s) => Plain (JStr s)
  | Some j => Rendered j
  end.

Definition plain_char (a : Ascii.ascii) : bool :=
  let n := Ascii.nat_of_ascii a in
  negb (n =? 34)%nat && negb (n =? 92)%nat && (32 <=? n)%nat.

(** The rest of a JSON string literal after its opening quote. *)
Fixpoint literal_body (s : string) : option string :=
  match s with
  | EmptyString => None
  | String a EmptyString => if (Ascii.nat_of_ascii a =? 34)%nat then Some "" else None
  | String a rest => if plain_char a then String a <$> literal_body rest else None
  end.

(** A [jsonb] parameter that is one string. *)
Definition jsonb_string (text : string) : option string :=
  match text with
  | String a rest => if (Ascii.nat_of_ascii a =? 34)%nat then literal_body rest else None
  | EmptyString => None
  end.

(** [json->key @> '"member"'] *)
Definition contains_string (key member : string) (doc : Obj) : bool :=
  match obj_get key doc with
  | Some (JArr items) =>
      existsb (fun i => match i with JStr s => String.eqb s member | _ => false end) items
  | Some (JStr s) => String.eqb s member
  | _ => false
  end.

(** [_id = ANY (ids)] *)
Definition any_id (ids : list Json) (id : string) : bool :=
  existsb (fun i => match i with JStr s => String.eqb s id | _ => false end) ids.

Definition group_row (row : string * Obj) : Row :=
  [("id", arrow_text "_id" row.2); ("name", arrow_text "name" row.2);
   ("roles", arrow_text "roles" row.2)].

Definition role_row (row : string * Obj) : Row :=
  [("role", arrow_text "name" row.2); ("permissions", arrow_text "permissions" row.2)].

Definition permission_row (row : string * Obj) : Row :=
  [("name", arrow_text "name" row.2)].

(** A statement over one table: answered with 42P01 when it is missing. *)
Definition on_table (db : DB) (c : string)
    (k : Table -> DB * (PgError + QueryResult)) : DB * (PgError + QueryResult) :=
  match db !! c with
  | None => (db, inl (undefined_table c))
  | Some t => k t
  end.

Definition exec (db : DB) (q : Stmt) : DB * (PgError + QueryResult) :=
  match q with
  | SelectAll c =>
      on_table db c (fun t => (db, inr (selected ["json"] (map json_row t))))
  | SelectById c id =>
      on_table db c (fun t => (db, inr (selected ["json"] (map json_row (filter_rows id t)))))
  | Insert c doc id =>
      on_table db c (fun t =>
        match id_param id with
        | IdNull => (db, inl not_null_violation)
        | IdOther => (db, inl (invalid_text "uuid"))
        | IdText s =>
            if existsb (has_id s) t then (db, inl (unique_violation c))
            else (<[c := (t ++ [(s, doc)])%list]> db, inr (affected "INSERT" 1))
        end)
  | Upsert c doc id =>
      on_table db c (fun t =>
        match id_param id with
        | IdNull => (db, inl not_null_violation)
        | IdOther => (db, inl (invalid_text "uuid"))
        | IdText s =>
            if existsb (has_id s) t
            then (<[c := map (fun r => if has_id s r then (r.1, doc) else r) t]> db,
                  inr (affected "INSERT" 1))
            else (<[c := (t ++ [(s, doc)])%list]> db, inr (affected "INSERT" 1))
        end)
  | Update c doc id =>
      on_table db c (fun t =>
        match id_param id with
        | IdNull => (db, inr (affected "UPDATE" 0))
        | IdOther => (db, inl (invalid_text "uuid"))
        | IdText s =>
            (<[c := map (fun r => if has_id s r then (r.1, doc) else r) t]> db,
             inr (affected "UPDATE" (length (filter_rows s t))))
        end)
  | Delete c id =>
      on_table db c (fun t =>
        (<[c := List.filter (fun r => negb (has_id id r)) t]> db,
         inr (affected "DELETE" (length (filter_rows id t)))))
  | CreateTableIfNotExists c =>
      match db !! c with
      | Some _ => (db, inr (utility "CREATE"))
      | None => (<[c := []]> db, inr (utility "CREATE"))
      end
  | DropAllTables => (∅, inr (utility "DO"))
  | SelectGroups member =>
      on_table db "groups" (fun t =>
        match jsonb_string member with
        | None => (db, inl (invalid_text "json"))
        | Some u =>
            (db, inr (selected ["id"; "name"; "roles"]
                        (map group_row (List.filter (fun r => contains_string "members" u r.2) t))))
        end)
  | SelectRoles member ids =>
      on_table db "roles" (fun t =>
        match jsonb_string member with
        | None => (db, inl (invalid_text "json"))
        | Some u =>
            (db, inr (selected ["role"; "permissions"]
                        (map role_row
                           (List.filter (fun r => contains_string "users" u r.2 || any_id ids r.1) t))))
        end)
  | SelectPermissions ids =>
      on_table db "permissions" (fun t =>
        (db, inr (selected ["name"]
                    (map permission_row (List.filter (fun r => any_id ids r.1) t)))))
  end.

#[export] Instance pg_pool : Pool DB := exec.

End Pg.

(** ** A scripted pool: answers are replayed in order, whatever is asked. *)

Module Script.

Definition Answers : Type := list (PgError + QueryResult).

Definition exhausted : PgError := {| code := None; message := "no answer left" |}.

Definition replay (s : Answers) (q : Stmt) : Answers * (PgError + QueryResult) :=
  match s with
  | [] => ([], inl exhausted)
  | a :: rest => (rest, a)
  end.

#[export] Instance script_pool : Pool Answers := replay.

End Script.

(** ** Sample generator and parser for the worked examples *)

Module Sample.

(** Twelve decimal digits, zero padded. *)
Definition node (n : nat) : string :=
  let d := pretty n in
  String.concat "" (replicate (12 - String.length d) "0") ++ d.

#[export] Instance sample_uuid : Uuid :=
  fun n => "3b241101-e2bb-4255-8caf-" ++ node n.

(** A parser that knows the three literals only. *)
#[export] Instance literals_only : JsonText :=
  fun text =>
    if String.eqb text "null" then Some JNull
    else if String.eqb text "true" then Some (JBool true)
    else if String.eqb text "false" then Some (JBool false)
    else None.

Definition start {S : Type} (s : S) : World S :=
  {| pool := s; issued := []; console := []; rng := 0 |}.

Definition id1 : string := "3b241101-e2bb-4255-8caf-000000000001".

(** A store with one collection that holds one record. *)
Definition users1 : Pg.Table := [(id1, [("_id", JStr id1); ("n", JNum 1)])].

Definition one_user : Pg.DB := <["users" := users1]> ∅.

(** Two groups of user [u1] that both list role [r1]; [r1] grants [p1]
    and [p2]. *)
Definition staff : Obj :=
  [("_id", JStr "g1"); ("name", JStr "Staff");
   ("members", JArr [JStr "u1"]); ("roles", JArr [JStr "r1"])].

Definition oncall : Obj :=
  [("_id", JStr "g2"); ("name", JStr "Oncall");
   ("members", JArr [JStr "u1"; JStr "u2"]); ("roles", JArr [JStr "r1"])].

Definition admin : Obj :=
  [("_id", JStr "r1"); ("name", JStr "admin"); ("users", JArr []);
   ("permissions", JArr [JStr "p1"; JStr "p2"])].

Definition auth_groups : Pg.Table := [("g1", staff); ("g2", oncall)].

Definition auth_roles : Pg.Table := [("r1", admin)].

Definition auth_permissions : Pg.Table :=
  [("p1", [("_id", JStr "p1"); ("name", JStr "read")]);
   ("p2", [("_id", JStr "p2"); ("name", JStr "write")])].

Definition auth_store : Pg.DB :=
  <["groups" := auth_groups]>
    (<["roles" := auth_roles]> (<["permissions" := auth_permissions]> ∅)).

(** What [getUserData] answers for [u1] in that store. *)
Definition u1_data : UserData :=
  {| groups := [ {| _id := Some (Plain (JStr "g1")); name := Some (Plain (JStr "Staff")) |};
                 {| _id := Some (Plain (JStr "g2")); name := Some (Plain (JStr "Oncall")) |} ];
     roles := [Some (Plain (JStr "admin"))];
     permissions := [Some (Plain (JStr "read")); Some (Plain (JStr "write"))] |}.

(** A role that lists user [u7] itself, in a store without groups. *)
Definition auditor : Obj :=
  [("_id", JStr "r9"); ("name", JStr "auditor"); ("users", JArr [JStr "u7"]);
   ("permissions", JArr [JStr "p1"])].

Definition direct_store : Pg.DB :=
  <["groups" := []]>
    (<["roles" := [("r9", auditor)]]> (<["permissions" := auth_permissions]> ∅)).

Definition u7_data : UserData :=
  {| groups := []; roles := [Some (Plain (JStr "auditor"))];
     permissions := [Some (Plain (JStr "read"))] |}.

End Sample.

Import (hints) Pg Script Sample.

(** ** Vocabulary of the statements below *)

Module Props.


(** The outcome of a query as the caller of [pool.query] sees it. *)
Definition settle (answer : PgError + QueryResult) : Exn + QueryResult :=
  match answer with
  | inl e => inl (PgFail e)
  | inr r => inr r
  end.

(** The world after [q] was handed to the pool, which moved to [s']. *)
Definition asked {S : Type} (w : World S) (s' : S) (qs : list Stmt) : World S :=
  {| pool := s'; issued := issued w ++ qs; console := console w; rng := rng w |}.

Definition warned {S : Type} (w : World S) (line : string) : World S :=
  {| pool := pool w; issued := issued w; console := console w ++ [line]; rng := rng w |}.

(** The world after one identifier was generated. *)
Definition ticked {S : Type} (w : World S) : World S :=
  {| pool := pool w; issued := issued w; console := console w; rng := Datatypes.S (rng w) |}.

Definition race_warning (c : string) : string :=
  "Possible race condition error on creation of table " ++ c
  ++ ". It should be safe to continue.".

(** The record [create] goes on with when [n] identifiers were generated
    before: its own when the identifier is truthy, else with the next
    generated one. *)
Definition identified `{Uuid} (record : Obj) (n : nat) : Obj :=
  if truthy (obj_get "_id" record) then record
  else obj_set "_id" (JStr (uuid_v4 n)) record.


End Props.
Export Props.

(** ** Vocabulary of the further properties *)

Module Observations.







(** The answer is a rejection with the missing-table code. *)
Definition missing_table (answer : PgError + QueryResult) : bool :=
  match answer with
  | inl e => code_is "42P01" (code e)
  | inr _ => false
  end.

End Observations.
Export Observations.

(** Unfolds a query on the engine down to the lookup of its table. *)
Ltac engine :=
  unfold pool_query, Pg.pg_pool, Pg.exec, Pg.on_table, Pg.Table in *.

(** ** Objects *)

Section Objects.

Lemma obj_get_set_eq k v o : obj_get k (obj_set k v o) = Some v.
Proof.
  induction o as [|[k' v'] o IH]; simpl.
  - by rewrite String.eqb_refl.
  - destruct (String.eqb k' k) eqn:E; simpl; rewrite E; [done | exact IH].
Qed.

Lemma obj_get_set_ne k k' v o : k <> k' -> obj_get k' (obj_set k v o) = obj_get k' o.
Proof.
  intros Hne. induction o as [|[k0 v0] o IH]; simpl.
  - destruct (String.eqb k k') eqn:E; [|done].
    apply String.eqb_eq in E. contradiction.
  - destruct (String.eqb k0 k) eqn:E; simpl.
    + apply String.eqb_eq in E. subst k0.
      destruct (String.eqb k k') eqn:E'; [|done].
      apply String.eqb_eq in E'. contradiction.
    + by rewrite IH.
Qed.

(** The values [!] sends to [true]. *)
Lemma falsy_values x :
  truthy x = false <->
  x ∈ [None; Some JNull; Some (JBool false); Some (JNum 0); Some (JStr "")].
Proof.
  split.
  - destruct x as [[| [] | n | s | |]|]; simpl; intros Hx; try discriminate;
      try (set_solver).
    + apply negb_false_iff, Z.eqb_eq in Hx. subst. set_solver.
    + apply negb_false_iff, String.eqb_eq in Hx. subst. set_solver.
  - rewrite !elem_of_cons, elem_of_nil.
    intros [-> | [-> | [-> | [-> | [-> | []]]]]]; reflexivity.
Qed.

End Objects.

(** ** The monad *)

Section Runs.
Context {S : Type} {P : Pool S} {U : Uuid} {J : JsonText}.

Lemma query_run (w : World S) q :
  query q w = (asked w (pool_query (pool w) q).1 [q], settle (pool_query (pool w) q).2).
Proof.
  unfold query, asked, settle.
  destruct (pool_query (pool w) q) as [s' [e | r]]; reflexivity.
Qed.

Lemma missing_table_code e :
  isMissingTableError (PgFail e) = code_is "42P01" (code e).
Proof. reflexivity. Qed.

End Runs.

(** ** Construction *)

Section Construction.
Context {S : Type} {P : Pool S} {U : Uuid} {J : JsonText}.

(** C3, as amended: a descriptor that is [undefined], [null] or not a string
    is refused with an ArgumentError, every string (the empty one too) is
    accepted, and in both cases the world is left as it was: nothing is
    asked of the pool. *)
Theorem constructor_accepts_every_string (w : World S) (cs : option Json) :
  exists msg,
    constructor cs w =
      (w, if is_string cs then inr {| connectionString := to_string_opt cs |}
          else inl (ArgumentError msg)).
Proof.
  destruct cs as [[| b | n | s | items | fields]|]; simpl; unfold throw, ret;
    first [ by exists "" | eexists; reflexivity ].
Qed.

End Construction.

(** C3 as stated fails: the empty string is a string, and the constructor
    has no test on its length. *)
Lemma constructor_empty_string_accepted :
  constructor (Some (JStr "")) (Sample.start (∅ : Pg.DB))
  = (Sample.start ∅, inr {| connectionString := "" |}).
Proof. reflexivity. Qed.

(** ** Reads: [getAll], [get], and [update] without upsert *)

Section Reads.
Context {S : Type} {P : Pool S} {U : Uuid} {J : JsonText}.

Lemma recover_empty (w : World S) q :
  catch (query q) emptyOnMissingTable w =
    (asked w (pool_query (pool w) q).1 [q],
     match (pool_query (pool w) q).2 with
     | inl e =>
         if code_is "42P01" (code e)
         then inr {| rowCount := Some 0; rows := []; command := ""; oid := 0; fields := [] |}
         else inl (PgFail e)
     | inr r => inr r
     end).
Proof.
  unfold catch. rewrite query_run.
  destruct (pool_query (pool w) q) as [s' [e | r]]; simpl; [|done].
  unfold emptyOnMissingTable. rewrite missing_table_code.
  by destruct (code_is "42P01" (code e)).
Qed.

Lemma get_run (w : World S) c id :
  get c id w =
    (asked w (pool_query (pool w) (SelectById c id)).1 [SelectById c id],
     match (pool_query (pool w) (SelectById c id)).2 with
     | inl e => if code_is "42P01" (code e) then inl (not_found id c) else inl (PgFail e)
     | inr r =>
         match rowCount r with
         | Some 0 => inl (not_found id c)
         | _ =>
             match rows r with
             | [] => inl (TypeError "Cannot read properties of undefined (reading 'json')")
             | row :: _ => inr (row_get "json" row)
             end
         end
     end).
Proof.
  unfold get, bind. rewrite recover_empty.
  destruct (pool_query (pool w) (SelectById c id)) as [s' [e | r]]; simpl.
  - by destruct (code_is "42P01" (code e)).
  - destruct (rowCount r) as [[|n]|]; [done | | ]; by destruct (rows r).
Qed.

Lemma update_plain_run (w : World S) c id record :
  let record' := obj_set "_id" (JStr id) record in
  let q := Update c record' (Some (JStr id)) in
  update c id record false w =
    (asked w (pool_query (pool w) q).1 [q],
     match (pool_query (pool w) q).2 with
     | inl e => if code_is "42P01" (code e) then inl (not_found id c) else inl (PgFail e)
     | inr r =>
         match rowCount r with
         | Some 0 => inl (not_found id c)
         | _ => inr record'
         end
     end).
Proof.
  intros record' q. unfold update, bind. rewrite obj_get_set_eq.
  fold record'. fold q. rewrite recover_empty.
  destruct (pool_query (pool w) q) as [s' [e | r]]; simpl.
  - by destruct (code_is "42P01" (code e)).
  - by destruct (rowCount r) as [[|n]|].
Qed.

Lemma getAll_run (w : World S) c :
  getAll c w =
    (asked w (pool_query (pool w) (SelectAll c)).1 [SelectAll c],
     match (pool_query (pool w) (SelectAll c)).2 with
     | inl e => if code_is "42P01" (code e) then inr [] else inl (PgFail e)
     | inr r => inr (map (row_get "json") (rows r))
     end).
Proof.
  unfold getAll, bind. rewrite recover_empty.
  destruct (pool_query (pool w) (SelectAll c)) as [s' [e | r]]; simpl; [|done].
  by destruct (code_is "42P01" (code e)).
Qed.

Lemma delete_run (w : World S) c id :
  delete c id w =
    (asked w (pool_query (pool w) (Delete c id)).1 [Delete c id],
     match (pool_query (pool w) (Delete c id)).2 with
     | inl e => inl (PgFail e)
     | inr _ => inr tt
     end).
Proof.
  unfold delete, bind. rewrite query_run.
  by destruct (pool_query (pool w) (Delete c id)) as [s' [e | r]].
Qed.

End Reads.

(** On the engine: what an identifier selects in a table it is not in. *)
Lemma filter_rows_absent id (t : Pg.Table) : id ∉ t.*1 -> Pg.filter_rows id t = [].
Proof.
  unfold Pg.filter_rows. induction t as [|[i d] t IH]; simpl; [done|].
  rewrite not_elem_of_cons. intros [Hne Hnin]. unfold Pg.has_id at 1; simpl.
  destruct (String.eqb i id) eqn:E.
  - apply String.eqb_eq in E. congruence.
  - auto.
Qed.



(** C6: when the SELECT of [getAll] is rejected with the missing-table code
    the result is the empty sequence, and a rejection with any other code
    (or none) is raised unchanged; on the engine a collection without a
    table and a collection with an empty table both read as empty. *)
Theorem getAll_empty_on_missing_table :
  (forall (S : Type) (P : Pool S) (w : World S) (c : string) (s' : S) (e : PgError),
      pool_query (pool w) (SelectAll c) = (s', inl e) ->
      getAll c w =
        (asked w s' [SelectAll c],
         if code_is "42P01" (code e) then inr [] else inl (PgFail e)))
  /\ (forall (w : World Pg.DB) (c : string),
        pool w !! c = None ->
        (getAll c w).2 = inr []
        /\ (getAll c {| pool := <[c := []]> (pool w); issued := issued w;
                        console := console w; rng := rng w |}).2 = inr []).
Proof.
  split.
  - intros S P w c s' e Hq. rewrite getAll_run, Hq. reflexivity.
  - intros w c Hc. rewrite !getAll_run. simpl. engine.
    rewrite Hc, lookup_insert_eq. done.
Qed.

Lemma getAll_empty_on_missing_table_witness :
  getAll "clients" (Sample.start (∅ : Pg.DB))
  = (asked (Sample.start ∅) ∅ [SelectAll "clients"], inr [])
  /\ (getAll "clients" (Sample.start (<["clients" := []]> ∅ : Pg.DB))).2 = inr [].
Proof.
  split.
  - apply (proj1 getAll_empty_on_missing_table _ _ (Sample.start (∅ : Pg.DB)) "clients" ∅
             (Pg.undefined_table "clients")).
    reflexivity.
  - apply (proj2 getAll_empty_on_missing_table (Sample.start (∅ : Pg.DB)) "clients").
    reflexivity.
Defined.

(** ** [delete] *)

Lemma keep_others_absent id (t : Pg.Table) :
  id ∉ t.*1 -> List.filter (fun r => negb (Pg.has_id id r)) t = t.
Proof.
  induction t as [|[i d] t IH]; simpl; [done|].
  rewrite not_elem_of_cons. intros [Hne Hnin]. unfold Pg.has_id at 1; simpl.
  destruct (String.eqb i id) eqn:E; simpl.
  - apply String.eqb_eq in E. congruence.
  - by rewrite IH.
Qed.

(** Deleting an identifier that an existing table does not hold succeeds
    and leaves the store as it was. *)
Lemma delete_absent_record (w : World Pg.DB) c id t :
  pool w !! c = Some t -> id ∉ t.*1 ->
  delete c id w = (asked w (pool w) [Delete c id], inr tt).
Proof.
  intros Hc Hnin. rewrite delete_run. engine. rewrite Hc. simpl.
  rewrite (keep_others_absent _ _ Hnin). by rewrite insert_id.
Qed.

(** C1, where the code departs from it: on a collection whose table was
    never created [delete] is rejected with the engine's missing-table
    error (42P01), which it passes on, while [get] and [getAll] absorb that
    same rejection. *)
Theorem delete_missing_table_raises (w : World Pg.DB) (c id : string) :
  pool w !! c = None ->
  delete c id w = (asked w (pool w) [Delete c id], inl (PgFail (Pg.undefined_table c)))
  /\ isMissingTableError (PgFail (Pg.undefined_table c)) = true
  /\ (get c id w).2 = inl (not_found id c)
  /\ (getAll c w).2 = inr [].
Proof.
  intros Hc. rewrite delete_run, get_run, getAll_run. engine. rewrite Hc. done.
Qed.

Lemma delete_missing_table_raises_witness :
  delete "users" "3b241101-e2bb-4255-8caf-000000000000" (Sample.start (∅ : Pg.DB))
  = (asked (Sample.start ∅) ∅ [Delete "users" "3b241101-e2bb-4255-8caf-000000000000"],
     inl (PgFail (Pg.undefined_table "users")))
  /\ isMissingTableError (PgFail (Pg.undefined_table "users")) = true
  /\ (get "users" "3b241101-e2bb-4255-8caf-000000000000" (Sample.start (∅ : Pg.DB))).2
     = inl (not_found "3b241101-e2bb-4255-8caf-000000000000" "users")
  /\ (getAll "users" (Sample.start (∅ : Pg.DB))).2 = inr [].
Proof.
  apply (delete_missing_table_raises (Sample.start (∅ : Pg.DB)) "users"
           "3b241101-e2bb-4255-8caf-000000000000").
  reflexivity.
Defined.

(** ** Writes: provisioning, [create], and [update] with upsert *)

Section Writes.
Context {S : Type} {P : Pool S} {U : Uuid} {J : JsonText}.

(** A write statement wrapped the way [create] and [update] wrap it. *)
Lemma provision_run (w : World S) c q :
  catch (query q) (fun ex => createOnMissingTable ex c (query q)) w =
    let '(s1, a1) := pool_query (pool w) q in
    match a1 with
    | inr r => (asked w s1 [q], inr r)
    | inl e1 =>
        if code_is "42P01" (code e1) then
          let '(s2, a2) := pool_query s1 (CreateTableIfNotExists c) in
          let '(s3, a3) := pool_query s2 q in
          match a2 with
          | inr _ => (asked w s3 [q; CreateTableIfNotExists c; q], settle a3)
          | inl e2 =>
              if code_is "23505" (code e2)
              then (warned (asked w s3 [q; CreateTableIfNotExists c; q]) (race_warning c),
                    settle a3)
              else (asked w s2 [q; CreateTableIfNotExists c], inl (PgFail e2))
          end
        else (asked w s1 [q], inl (PgFail e1))
    end.
Proof.
  unfold catch at 1. rewrite query_run.
  destruct (pool_query (pool w) q) as [s1 [e1 | r1]] eqn:H1; simpl; [|done].
  unfold createOnMissingTable. rewrite missing_table_code.
  destruct (code_is "42P01" (code e1)); simpl; [|done].
  unfold bind, catch. rewrite query_run. simpl.
  destruct (pool_query s1 (CreateTableIfNotExists c)) as [s2 [e2 | r2]] eqn:H2; simpl.
  - destruct (code_is "23505" (code e2)); simpl.
    + rewrite query_run. simpl.
      destruct (pool_query s2 q) as [s3 a3]; simpl.
      unfold warned, asked; simpl. by rewrite <- !app_assoc.
    + destruct (pool_query s2 q) as [s3 a3]. unfold asked; simpl.
      by rewrite <- !app_assoc.
  - rewrite query_run. simpl. destruct (pool_query s2 q) as [s3 a3]; simpl.
    unfold asked; simpl. by rewrite <- !app_assoc.
Qed.

Lemma identified_id record n :
  obj_get "_id" (identified record n) =
    if truthy (obj_get "_id" record) then obj_get "_id" record
    else Some (JStr (uuid_v4 n)).
Proof.
  unfold identified. destruct (truthy (obj_get "_id" record)); [done|].
  apply obj_get_set_eq.
Qed.

Lemma create_run (w : World S) c record :
  let record' := identified record (rng w) in
  let w1 := if truthy (obj_get "_id" record) then w else ticked w in
  let q := Insert c record' (obj_get "_id" record') in
  create c record w =
    match catch (query q) (fun ex => createOnMissingTable ex c (query q)) w1 with
    | (w2, inr _) => (w2, inr record')
    | (w2, inl ex) =>
        (w2, inl (if isAlreadyExistsError ex
                  then already_exists (obj_get "_id" record') c else ex))
    end.
Proof.
  intros record' w1 q. unfold create, bind at 1.
  assert ((if negb (truthy (obj_get "_id" record))
           then bind uuid_next (fun u => ret (obj_set "_id" (JStr u) record))
           else ret record) w = (w1, inr record')) as ->.
  { unfold record', w1, identified.
    by destruct (truthy (obj_get "_id" record)). }
  fold q. unfold bind, catch at 1.
  destruct (catch (query q) _ w1) as [w2 [ex | r]]; simpl; [|done].
  by destruct (isAlreadyExistsError ex).
Qed.

Lemma update_upsert_run (w : World S) c id record :
  let record' := obj_set "_id" (JStr id) record in
  let q := Upsert c record' (Some (JStr id)) in
  update c id record true w =
    match catch (query q) (fun ex => createOnMissingTable ex c (query q)) w with
    | (w2, inr _) => (w2, inr record')
    | (w2, inl ex) => (w2, inl ex)
    end.
Proof.
  intros record' q. unfold update, bind. rewrite obj_get_set_eq.
  fold record'. fold q.
  by destruct (catch (query q) _ w) as [w2 [ex | r]].
Qed.

(** C4: when a write statement (the INSERT of [create], the upsert of
    [update]) is rejected with the missing-table code, the provider asks for
    CREATE TABLE IF NOT EXISTS; a rejection of that with the
    uniqueness-violation code is logged and otherwise ignored, any other
    rejection is raised and nothing more is asked; then the same statement
    is asked once more and its answer, success or failure, is the answer of
    the recovery, with no second creation.  [update] hands that answer
    on; [create] hands it to its own handler of duplicate identifiers. *)
Theorem provisioning_once (w : World S) (c : string) (q : Stmt)
    (s1 s2 s3 : S) (e1 : PgError) (a2 a3 : PgError + QueryResult) :
  pool_query (pool w) q = (s1, inl e1) ->
  code e1 = Some "42P01" ->
  pool_query s1 (CreateTableIfNotExists c) = (s2, a2) ->
  pool_query s2 q = (s3, a3) ->
  let outcome :=
    match a2 with
    | inr _ => (asked w s3 [q; CreateTableIfNotExists c; q], settle a3)
    | inl e2 =>
        if code_is "23505" (code e2)
        then (warned (asked w s3 [q; CreateTableIfNotExists c; q]) (race_warning c), settle a3)
        else (asked w s2 [q; CreateTableIfNotExists c], inl (PgFail e2))
    end in
  catch (query q) (fun ex => createOnMissingTable ex c (query q)) w = outcome
  /\ (forall id record,
        q = Upsert c (obj_set "_id" (JStr id) record) (Some (JStr id)) ->
        update c id record true w =
          (outcome.1,
           match outcome.2 with
           | inl ex => inl ex
           | inr _ => inr (obj_set "_id" (JStr id) record)
           end))
  /\ (forall record,
        truthy (obj_get "_id" record) = true ->
        q = Insert c record (obj_get "_id" record) ->
        create c record w =
          (outcome.1,
           match outcome.2 with
           | inl ex =>
               inl (if isAlreadyExistsError ex
                    then already_exists (obj_get "_id" record) c else ex)
           | inr _ => inr record
           end)).
Proof.
  intros H1 Hcode H2 H3 outcome.
  assert (catch (query q) (fun ex => createOnMissingTable ex c (query q)) w = outcome)
    as Hrun.
  { rewrite provision_run, H1. unfold code_is at 1. rewrite Hcode. simpl.
    rewrite H2, H3. reflexivity. }
  split; [exact Hrun | split].
  - intros id record ->.
    pose proof (update_upsert_run w c id record) as Hu. simpl in Hu.
    rewrite Hu, Hrun. by destruct outcome as [w2 [ex | r]].
  - intros record Ht Hq.
    pose proof (create_run w c record) as Hc. simpl in Hc.
    unfold identified in Hc. rewrite Ht in Hc. rewrite <- Hq in Hc.
    rewrite Hc, Hrun. by destruct outcome as [w2 [ex | r]].
Qed.

End Writes.

(** A first writer that loses the creation race: the upsert is rejected for
    the missing table, the creation for the duplicate object, and the second
    upsert goes through. *)
Lemma provisioning_once_witness :
  update "clients" "id1" [("name", JStr "a")] true
    (Sample.start
       ([inl {| code := Some "42P01"; message := "relation clients does not exist" |};
         inl {| code := Some "23505"; message := "duplicate key value" |};
         inr (Pg.affected "INSERT" 1)] : Script.Answers))
  = ({| pool := [];
        issued := [Upsert "clients" [("name", JStr "a"); ("_id", JStr "id1")] (Some (JStr "id1"));
                   CreateTableIfNotExists "clients";
                   Upsert "clients" [("name", JStr "a"); ("_id", JStr "id1")] (Some (JStr "id1"))];
        console := [race_warning "clients"];
        rng := 0 |},
     inr [("name", JStr "a"); ("_id", JStr "id1")]).
Proof.
  exact (proj1 (proj2
           (provisioning_once
              (Sample.start
                 ([inl {| code := Some "42P01"; message := "relation clients does not exist" |};
                   inl {| code := Some "23505"; message := "duplicate key value" |};
                   inr (Pg.affected "INSERT" 1)] : Script.Answers))
              "clients"
              (Upsert "clients" [("name", JStr "a"); ("_id", JStr "id1")] (Some (JStr "id1")))
              _ _ _ _ _ _ eq_refl eq_refl eq_refl eq_refl))
           "id1" [("name", JStr "a")] eq_refl).
Defined.

(** ** Duplicate identifiers *)

Lemma has_id_present id (t : Pg.Table) : id ∈ t.*1 -> existsb (Pg.has_id id) t = true.
Proof.
  induction t as [|[i d] t IH]; simpl.
  - intros H. by apply elem_of_nil in H.
  - rewrite elem_of_cons. unfold Pg.has_id at 1; simpl. intros [-> | Hin].
    + by rewrite String.eqb_refl.
    + rewrite (IH Hin). apply orb_true_r.
Qed.


(** Under the unique constraint an identifier selects one row at most. *)
Lemma filter_rows_unique id (t : Pg.Table) :
  NoDup t.*1 -> id ∈ t.*1 -> length (Pg.filter_rows id t) = 1.
Proof.
  unfold Pg.filter_rows. induction t as [|[i d] t IH]; simpl.
  - intros _ H. by apply elem_of_nil in H.
  - rewrite NoDup_cons, elem_of_cons. intros [Hnin Hnd] Hin.
    unfold Pg.has_id at 1; simpl. destruct (String.eqb i id) eqn:E.
    + apply String.eqb_eq in E. subst i. simpl.
      pose proof (filter_rows_absent _ _ Hnin) as Hf.
      unfold Pg.filter_rows in Hf. by rewrite Hf.
    + destruct Hin as [-> | Hin]; [by rewrite String.eqb_refl in E | auto].
Qed.

(** C8: [create] turns a rejection with the uniqueness-violation code into
    the validation error that names the identifier and the collection, and
    raises a rejection with another code (the missing-table one apart, which
    starts the provisioning) as it came; on the engine, creating a record
    whose identifier the collection already holds raises that validation
    error and leaves the store as it was, with one record at the
    identifier. *)
Theorem create_duplicate_identifier :
  (forall (S : Type) (P : Pool S) (U : Uuid) (w : World S) (c : string) (record : Obj)
          (s1 : S) (e : PgError),
      let record' := identified record (rng w) in
      let q := Insert c record' (obj_get "_id" record') in
      pool_query (pool w) q = (s1, inl e) ->
      code_is "42P01" (code e) = false ->
      create c record w =
        (asked (if truthy (obj_get "_id" record) then w else ticked w) s1 [q],
         inl (if code_is "23505" (code e)
              then ValidationError ("The record " ++ to_string_opt (obj_get "_id" record')
                                    ++ " in " ++ c ++ " already exists.")
              else PgFail e)))
  /\ (forall (U : Uuid) (w : World Pg.DB) (c id : string) (record : Obj) (t : Pg.Table),
        obj_get "_id" record = Some (JStr id) ->
        id <> "" ->
        pool w !! c = Some t ->
        id ∈ t.*1 ->
        NoDup t.*1 ->
        create c record w =
          (asked w (pool w) [Insert c record (Some (JStr id))],
           inl (ValidationError ("The record " ++ id ++ " in " ++ c ++ " already exists.")))
        /\ length (Pg.filter_rows id t) = 1).
Proof.
  split.
  - intros S P U w c record s1 e record' q Hq Hcode.
    pose proof (create_run w c record) as Hc. simpl in Hc. fold record' in Hc. fold q in Hc.
    rewrite Hc, provision_run. clear Hc.
    assert (pool (if truthy (obj_get "_id" record) then w else ticked w) = pool w) as ->
      by (by destruct (truthy _)).
    rewrite Hq, Hcode. unfold isAlreadyExistsError. simpl.
    by destruct (code_is "23505" (code e)).
  - intros U w c id record t Hid Hne Hc Hin Hnd.
    split; [|by apply filter_rows_unique].
    assert (truthy (obj_get "_id" record) = true) as Ht.
    { rewrite Hid. simpl. destruct (String.eqb id "") eqn:E; [|done].
      apply String.eqb_eq in E. contradiction. }
    pose proof (create_run w c record) as Hr. simpl in Hr.
    unfold identified in Hr. rewrite Ht in Hr.
    rewrite Hr, provision_run, Hid. clear Hr. engine. rewrite Hc. simpl.
    rewrite (has_id_present _ _ Hin). reflexivity.
Qed.

Lemma create_duplicate_identifier_witness :
  (create "users" [("_id", JStr Sample.id1); ("n", JNum 2)] (Sample.start Sample.one_user)
   = (asked (Sample.start Sample.one_user) Sample.one_user
        [Insert "users" [("_id", JStr Sample.id1); ("n", JNum 2)] (Some (JStr Sample.id1))],
      inl (ValidationError
             "The record 3b241101-e2bb-4255-8caf-000000000001 in users already exists."))
   /\ length (Pg.filter_rows Sample.id1 Sample.users1) = 1)
  /\ create "users" [("_id", JStr Sample.id1)]
       (Sample.start
          ([inl {| code := Some "57P01"; message := "terminating connection" |}]
             : Script.Answers))
     = ({| pool := [];
           issued := [Insert "users" [("_id", JStr Sample.id1)] (Some (JStr Sample.id1))];
           console := []; rng := 0 |},
        inl (PgFail {| code := Some "57P01"; message := "terminating connection" |})).
Proof.
  split.
  - refine (proj2 create_duplicate_identifier _ (Sample.start Sample.one_user) "users"
              Sample.id1 [("_id", JStr Sample.id1); ("n", JNum 2)] Sample.users1
              eq_refl _ eq_refl _ _).
    + discriminate.
    + apply list_elem_of_here.
    + apply NoDup_singleton.
  - exact (proj1 create_duplicate_identifier _ _ _
             (Sample.start
                ([inl {| code := Some "57P01"; message := "terminating connection" |}]
                   : Script.Answers))
             "users" [("_id", JStr Sample.id1)] _ _ eq_refl eq_refl).
Defined.

(** ** Identifier assignment and the frame of a write *)

Section Identifiers.
Context {S : Type} {P : Pool S} {U : Uuid}.

Lemma provision_first_statement (w : World S) c q :
  exists rest,
    issued (catch (query q) (fun ex => createOnMissingTable ex c (query q)) w).1
    = (issued w ++ q :: rest)%list
    /\ rng (catch (query q) (fun ex => createOnMissingTable ex c (query q)) w).1 = rng w.
Proof.
  rewrite provision_run.
  destruct (pool_query (pool w) q) as [s1 [e1 | r1]]; simpl;
    [destruct (code_is "42P01" (code e1)); simpl|]; try by eexists.
  destruct (pool_query s1 (CreateTableIfNotExists c)) as [s2 [e2 | r2]];
    destruct (pool_query s2 q) as [s3 a3]; simpl;
    [destruct (code_is "23505" (code e2)); simpl|]; by eexists.
Qed.

(** C9: [create] reads the identifier through its truth value.  The values
    that count as absent are exactly a missing property ([undefined]),
    [null], [false], [0] and the empty string; for these the record goes on
    with the next generated identifier in its place, and that is what the
    INSERT is bound to and what is returned; a truthy identifier is kept
    and no identifier is generated. *)
Theorem create_replaces_falsy_identifier (w : World S) (c : string) (record : Obj) :
  let supplied := obj_get "_id" record in
  let record' := identified record (rng w) in
  (truthy supplied = false
   <-> supplied ∈ [None; Some JNull; Some (JBool false); Some (JNum 0); Some (JStr "")])
  /\ record' = (if truthy supplied then record
                else obj_set "_id" (JStr (uuid_v4 (rng w))) record)
  /\ obj_get "_id" record' = (if truthy supplied then supplied
                              else Some (JStr (uuid_v4 (rng w))))
  /\ (exists rest,
        issued (create c record w).1
        = (issued w ++ Insert c record' (obj_get "_id" record') :: rest)%list)
  /\ rng (create c record w).1
     = (if truthy supplied then rng w else Datatypes.S (rng w))
  /\ match (create c record w).2 with
     | inr doc => doc = record'
     | inl _ => True
     end.
Proof.
  intros supplied record'.
  split; [apply falsy_values|].
  split; [reflexivity|].
  split; [apply identified_id|].
  pose proof (create_run w c record) as Hc. simpl in Hc. fold record' in Hc.
  fold supplied in Hc. rewrite Hc. clear Hc.
  destruct (provision_first_statement
              (if truthy supplied then w else ticked w) c
              (Insert c record' (obj_get "_id" record'))) as (rest & Hi & Hr).
  destruct (catch _ _ _) as [w2 [ex | r]]; simpl in *.
  - repeat split.
    + exists rest. rewrite Hi. by destruct (truthy supplied).
    + rewrite Hr. by destruct (truthy supplied).
  - repeat split.
    + exists rest. rewrite Hi. by destruct (truthy supplied).
    + rewrite Hr. by destruct (truthy supplied).
Qed.

(** C10: the document [create] or [update] returns is the caller's record,
    either as it was or with its [_id] property set; every other property
    reads as before. *)
Theorem write_returns_the_record (w w' : World S) (c id : string) (record doc : Obj)
    (upsert : bool) :
  create c record w = (w', inr doc) \/ update c id record upsert w = (w', inr doc) ->
  (doc = record \/ exists v, doc = obj_set "_id" v record)
  /\ (forall k, k <> "_id" -> obj_get k doc = obj_get k record)
  /\ (update c id record upsert w = (w', inr doc) ->
      doc = obj_set "_id" (JStr id) record).
Proof.
  intros Hrun.
  assert (doc = record \/ exists v, doc = obj_set "_id" v record) as Hdoc.
  { destruct Hrun as [Hrun | Hrun].
    - pose proof (create_run w c record) as Hc. simpl in Hc. rewrite Hc in Hrun.
      destruct (catch _ _ _) as [w2 [ex | r]]; simplify_eq.
      unfold identified. destruct (truthy _); eauto.
    - right. exists (JStr id). destruct upsert.
      + pose proof (update_upsert_run w c id record) as Hu. simpl in Hu.
        rewrite Hu in Hrun. destruct (catch _ _ _) as [w2 [ex | r]]; by simplify_eq.
      + pose proof (update_plain_run w c id record) as Hu. simpl in Hu.
        rewrite Hu in Hrun.
        destruct (pool_query _ _) as [s1 [e | r]]; simpl in Hrun.
        * destruct (code_is _ _); by simplify_eq.
        * destruct (rowCount r) as [[|n]|]; by simplify_eq. }
  split; [exact Hdoc | split].
  - intros k Hk. destruct Hdoc as [-> | [v ->]]; [done|].
    apply obj_get_set_ne. congruence.
  - intros Hu'. destruct upsert.
    + pose proof (update_upsert_run w c id record) as Hu. simpl in Hu.
      rewrite Hu in Hu'. destruct (catch _ _ _) as [w2 [ex | r]]; by simplify_eq.
    + pose proof (update_plain_run w c id record) as Hu. simpl in Hu.
      rewrite Hu in Hu'.
      destruct (pool_query _ _) as [s1 [e | r]]; simpl in Hu'.
      * destruct (code_is _ _); by simplify_eq.
      * destruct (rowCount r) as [[|n]|]; by simplify_eq.
Qed.

End Identifiers.

Lemma write_returns_the_record_witness :
  ([("n", JNum 5); ("_id", JStr "3b241101-e2bb-4255-8caf-000000000000")] = [("n", JNum 5)]
   \/ exists v, [("n", JNum 5); ("_id", JStr "3b241101-e2bb-4255-8caf-000000000000")]
                = obj_set "_id" v [("n", JNum 5)])
  /\ (forall k, k <> "_id" ->
        obj_get k [("n", JNum 5); ("_id", JStr "3b241101-e2bb-4255-8caf-000000000000")]
        = obj_get k [("n", JNum 5)])
  /\ (update "users" "7" [("n", JNum 5)] false (Sample.start (∅ : Pg.DB))
      = ((create "users" [("n", JNum 5)] (Sample.start (∅ : Pg.DB))).1,
         inr [("n", JNum 5); ("_id", JStr "3b241101-e2bb-4255-8caf-000000000000")]) ->
      [("n", JNum 5); ("_id", JStr "3b241101-e2bb-4255-8caf-000000000000")]
      = obj_set "_id" (JStr "7") [("n", JNum 5)]).
Proof.
  apply (write_returns_the_record (Sample.start (∅ : Pg.DB))
           (create "users" [("n", JNum 5)] (Sample.start (∅ : Pg.DB))).1
           "users" "7" [("n", JNum 5)]
           [("n", JNum 5); ("_id", JStr "3b241101-e2bb-4255-8caf-000000000000")] false).
  left. vm_compute. reflexivity.
Defined.

(** ** Round trip *)




(** ** [getUserData] *)

Section Parsing.
Context {S : Type} {P : Pool S} {J : JsonText}.

Lemma JSON_parse_pure (x : option Cell) (w : World S) : (JSON_parse x w).1 = w.
Proof.
  unfold JSON_parse. destruct x as [[j | j]|]; try reflexivity;
    by destruct (parse_text _).
Qed.

(** A successful [map] of [JSON.parse] leaves the world alone and holds the
    value of every cell that came from the engine's renderer. *)
Lemma mapM_parse_inv (g : Row -> option Cell) (xs : list Row) (w w' : World S) ys :
  mapM (fun row => JSON_parse (g row)) xs w = (w', inr ys) ->
  w' = w /\ forall x j, x ∈ xs -> g x = Some (Rendered j) -> j ∈ ys.
Proof.
  revert w' ys. induction xs as [|x xs IH]; intros w' ys; simpl.
  - unfold ret. intros [= <- <-]. split; [done|].
    intros x j Hx. by apply elem_of_nil in Hx.
  - unfold bind at 1.
    pose proof (JSON_parse_pure (g x) w) as Hpure.
    destruct (JSON_parse (g x) w) as [w1 [ex | y]] eqn:E; [discriminate|].
    simpl in Hpure. subst w1. unfold bind at 1.
    destruct (mapM _ xs w) as [w2 [ex | ys']] eqn:E2; [discriminate|].
    unfold ret. intros [= <- <-].
    destruct (IH _ _ eq_refl) as [-> Hin]. split; [done|].
    intros x0 j. rewrite !elem_of_cons. intros [-> | Hx0] Hg.
    + left. rewrite Hg in E. unfold JSON_parse, ret in E. congruence.
    + right. eauto.
Qed.

End Parsing.

Lemma concat_js_keeps (ys : list Json) (acc : list Json) i :
  i ∈ acc -> i ∈ fold_left concat_js ys acc.
Proof.
  revert acc. induction ys as [|y ys IH]; intros acc Hi; simpl; [done|].
  apply IH. unfold concat_js. destruct y; apply elem_of_app; by left.
Qed.

(** Flattening keeps every item of every parsed array. *)
Lemma concat_js_flat (ys : list Json) (acc items : list Json) i :
  JArr items ∈ ys -> i ∈ items -> i ∈ fold_left concat_js ys acc.
Proof.
  revert acc. induction ys as [|y ys IH]; intros acc Hy Hi; simpl.
  - by apply elem_of_nil in Hy.
  - apply elem_of_cons in Hy as [<- | Hy]; [|by apply IH].
    apply concat_js_keeps. simpl. apply elem_of_app. by right.
Qed.

Lemma any_id_listed (ids : list Json) id : JStr id ∈ ids -> Pg.any_id ids id = true.
Proof.
  unfold Pg.any_id. induction ids as [|i ids IH]; simpl.
  - intros H. by apply elem_of_nil in H.
  - rewrite elem_of_cons. intros [<- | Hin].
    + by rewrite String.eqb_refl.
    + rewrite (IH Hin). apply orb_true_r.
Qed.

Lemma filter_sublist_of {A} (f : A -> bool) (l : list A) : List.filter f l `sublist_of` l.
Proof.
  induction l as [|x l IH]; simpl; [constructor|].
  destruct (f x); by constructor.
Qed.

Lemma elem_of_filter_bool {A} (f : A -> bool) (l : list A) x :
  x ∈ List.filter f l <-> x ∈ l /\ f x = true.
Proof. rewrite !list_elem_of_In. apply List.filter_In. Qed.

Lemma arrow_text_array key doc items :
  obj_get key doc = Some (JArr items) -> Pg.arrow_text key doc = Rendered (JArr items).
Proof. unfold Pg.arrow_text. by intros ->. Qed.

(** C2 as stated fails: the user is in two groups that both list role
    [r1], and the role's name comes back once.  The roles query is one
    SELECT over the roles table; listing an identifier twice in its array
    parameter selects the record once. *)
Lemma getUserData_shared_role_listed_once :
  (getUserData "u1" (Sample.start Sample.auth_store)).2 = inr Sample.u1_data
  /\ roles Sample.u1_data = [Some (Plain (JStr "admin"))]
  /\ issued (getUserData "u1" (Sample.start Sample.auth_store)).1
     = [SelectGroups (dquote ++ "u1" ++ dquote);
        SelectRoles (dquote ++ "u1" ++ dquote) [JStr "r1"; JStr "r1"];
        SelectPermissions [JStr "p1"; JStr "p2"]].
Proof. vm_compute. repeat split; reflexivity. Qed.

(** C2, as amended: for a user in two groups that both list a role, the
    roles sequence holds one name per selected role record, the selected
    records being a subsequence of the roles table in which that role's
    record occurs (so the sequence is never longer than the table, however
    many groups list the role), and the permissions sequence holds the name
    of every permission record listed in that role's permissions array. *)
Theorem getUserData_shared_role (J : JsonText) (w w' : World Pg.DB) (u : string)
    (G R Pm : Pg.Table) (g1 g2 rid : string) (gd1 gd2 rdoc : Obj)
    (rs1 rs2 : list Json) (res : UserData) :
  pool w !! "groups" = Some G ->
  pool w !! "roles" = Some R ->
  pool w !! "permissions" = Some Pm ->
  Pg.jsonb_string (dquote ++ u ++ dquote) = Some u ->
  (g1, gd1) ∈ G -> (g2, gd2) ∈ G ->
  Pg.contains_string "members" u gd1 = true ->
  Pg.contains_string "members" u gd2 = true ->
  obj_get "roles" gd1 = Some (JArr rs1) -> JStr rid ∈ rs1 ->
  obj_get "roles" gd2 = Some (JArr rs2) -> JStr rid ∈ rs2 ->
  (rid, rdoc) ∈ R ->
  getUserData u w = (w', inr res) ->
  (exists kept : Pg.Table,
      kept `sublist_of` R
      /\ (rid, rdoc) ∈ kept
      /\ roles res = map (fun r => Some (Pg.arrow_text "name" r.2)) kept)
  /\ length (roles res) <= length R
  /\ (forall ps pid pdoc,
        obj_get "permissions" rdoc = Some (JArr ps) ->
        JStr pid ∈ ps ->
        (pid, pdoc) ∈ Pm ->
        Some (Pg.arrow_text "name" pdoc) ∈ permissions res).
Proof.
  intros HG HR HP Hu Hg1 Hg2 Hm1 Hm2 Hr1 Hi1 Hr2 Hi2 Hrole Hrun.
  unfold getUserData in Hrun. unfold bind at 1 in Hrun. rewrite query_run in Hrun.
  engine. rewrite HG, Hu in Hrun. cbn [fst snd settle] in Hrun.
  unfold bind at 1 in Hrun.
  match type of Hrun with
  | context [mapM ?f ?xs ?w0] => destruct (mapM f xs w0) as [w1 [ex | parsed1]] eqn:Hp1
  end; [discriminate|].
  apply mapM_parse_inv in Hp1 as [-> Hparsed1].
  unfold bind at 1 in Hrun. rewrite query_run in Hrun.
  unfold asked in Hrun. cbn [pool issued console rng] in Hrun.
  engine. rewrite HR, Hu in Hrun. cbn [fst snd settle] in Hrun.
  unfold bind at 1 in Hrun.
  match type of Hrun with
  | context [mapM ?f ?xs ?w0] => destruct (mapM f xs w0) as [w2 [ex | parsed2]] eqn:Hp2
  end; [discriminate|].
  apply mapM_parse_inv in Hp2 as [-> Hparsed2].
  unfold bind at 1 in Hrun. rewrite query_run in Hrun.
  unfold asked in Hrun. cbn [pool issued console rng] in Hrun.
  engine. rewrite HP in Hrun. cbn [fst snd settle] in Hrun.
  unfold ret in Hrun. injection Hrun as _ <-. cbn [roles permissions Pg.selected rows].
  set (rolesIds := fold_left concat_js parsed1 []) in *.
  set (permissionIds := fold_left concat_js parsed2 []) in *.
  set (sel := fun r : string * Obj =>
                Pg.contains_string "users" u r.2 || Pg.any_id rolesIds r.1) in *.
  assert (JStr rid ∈ rolesIds) as Hrid.
  { apply (concat_js_flat _ _ rs1); [|done].
    apply (Hparsed1 (Pg.group_row (g1, gd1))).
    - apply list_elem_of_fmap. exists (g1, gd1). split; [done|].
      apply elem_of_filter_bool. split; done.
    - simpl. by rewrite (arrow_text_array _ _ _ Hr1). }
  assert ((rid, rdoc) ∈ List.filter sel R) as Hkept.
  { apply elem_of_filter_bool. split; [done|]. unfold sel. simpl.
    rewrite (any_id_listed _ _ Hrid). apply orb_true_r. }
  split; [|split].
  - exists (List.filter sel R). split; [apply filter_sublist_of|]. split; [done|].
    rewrite map_map. reflexivity.
  - rewrite !length_map. apply sublist_length, filter_sublist_of.
  - intros ps pid pdoc Hps Hpid Hperm.
    assert (JStr pid ∈ permissionIds) as Hlisted.
    { apply (concat_js_flat _ _ ps); [|done].
      apply (Hparsed2 (Pg.role_row (rid, rdoc))).
      - apply list_elem_of_fmap. exists (rid, rdoc). split; done.
      - simpl. by rewrite (arrow_text_array _ _ _ Hps). }
    rewrite map_map. apply list_elem_of_fmap. exists (pid, pdoc). split; [done|].
    apply elem_of_filter_bool. split; [done|]. simpl. by apply any_id_listed.
Qed.

Lemma getUserData_shared_role_witness :
  (exists kept : Pg.Table,
      kept `sublist_of` Sample.auth_roles
      /\ ("r1", Sample.admin) ∈ kept
      /\ roles Sample.u1_data = map (fun r => Some (Pg.arrow_text "name" r.2)) kept)
  /\ length (roles Sample.u1_data) <= length Sample.auth_roles
  /\ (forall ps pid pdoc,
        obj_get "permissions" Sample.admin = Some (JArr ps) ->
        JStr pid ∈ ps ->
        (pid, pdoc) ∈ Sample.auth_permissions ->
        Some (Pg.arrow_text "name" pdoc) ∈ permissions Sample.u1_data).
Proof.
  refine (getUserData_shared_role _ (Sample.start Sample.auth_store)
            (getUserData "u1" (Sample.start Sample.auth_store)).1 "u1"
            Sample.auth_groups Sample.auth_roles Sample.auth_permissions
            "g1" "g2" "r1" Sample.staff Sample.oncall Sample.admin
            [JStr "r1"] [JStr "r1"] Sample.u1_data
            eq_refl eq_refl eq_refl eq_refl _ _ eq_refl eq_refl eq_refl _ eq_refl _ _ _).
  - apply list_elem_of_here.
  - apply list_elem_of_further, list_elem_of_here.
  - apply list_elem_of_here.
  - apply list_elem_of_here.
  - apply list_elem_of_here.
  - vm_compute. reflexivity.
Defined.

(** ** The unique constraint is an invariant of the engine *)







(** * Further properties *)

(** ** What each method asks of the pool *)

Section Traces.
Context {S : Type} {P : Pool S} {U : Uuid} {J : JsonText}.

Lemma deleteAll_run (w : World S) :
  deleteAll w =
    (asked w (pool_query (pool w) DropAllTables).1 [DropAllTables],
     match (pool_query (pool w) DropAllTables).2 with
     | inl e => inl (PgFail e)
     | inr _ => inr tt
     end).
Proof.
  unfold deleteAll, bind. rewrite query_run.
  by destruct (pool_query (pool w) DropAllTables) as [s' [e | r]].
Qed.

(** X1: [getAll], [get], [update] without upsert, [delete] and [deleteAll]
    hand one statement to the pool, whatever it answers: nothing is created,
    nothing is retried, nothing is logged and no identifier is generated. *)
Theorem reads_ask_once (w : World S) (c id : string) (record : Obj) :
  (getAll c w).1 = asked w (pool_query (pool w) (SelectAll c)).1 [SelectAll c]
  /\ (get c id w).1 = asked w (pool_query (pool w) (SelectById c id)).1 [SelectById c id]
  /\ (update c id record false w).1
     = asked w (pool_query (pool w)
                  (Update c (obj_set "_id" (JStr id) record) (Some (JStr id)))).1
         [Update c (obj_set "_id" (JStr id) record) (Some (JStr id))]
  /\ (delete c id w).1 = asked w (pool_query (pool w) (Delete c id)).1 [Delete c id]
  /\ (deleteAll w).1 = asked w (pool_query (pool w) DropAllTables).1 [DropAllTables].
Proof.
  pose proof (update_plain_run w c id record) as Hu. simpl in Hu.
  rewrite getAll_run, get_run, Hu, delete_run, deleteAll_run. done.
Qed.

Lemma provision_trace (w : World S) c q :
  let after := (catch (query q) (fun ex => createOnMissingTable ex c (query q)) w).1 in
  exists qs,
    issued after = (issued w ++ qs)%list
    /\ (qs = [q] \/ qs = [q; CreateTableIfNotExists c]
        \/ qs = [q; CreateTableIfNotExists c; q])
    /\ (if missing_table (pool_query (pool w) q).2 then True else qs = [q])
    /\ (console after = console w \/ console after = (console w ++ [race_warning c])%list)
    /\ rng after = rng w.
Proof.
  intros after. unfold after. rewrite provision_run. unfold missing_table.
  destruct (pool_query (pool w) q) as [s1 [e1 | r1]]; simpl;
    [destruct (code_is "42P01" (code e1)); simpl|];
    try (exists [q]; by auto 10).
  destruct (pool_query s1 (CreateTableIfNotExists c)) as [s2 [e2 | r2]];
    destruct (pool_query s2 q) as [s3 a3]; simpl;
    [destruct (code_is "23505" (code e2)); simpl|].
  - exists [q; CreateTableIfNotExists c; q]. by auto 10.
  - exists [q; CreateTableIfNotExists c]. by auto 10.
  - exists [q; CreateTableIfNotExists c; q]. by auto 10.
Qed.

(** X2: [create] and [update] with upsert hand the pool their statement,
    then at most one CREATE TABLE IF NOT EXISTS, then at most once the same
    statement again, and nothing else; when the first answer is not the
    missing-table rejection the statement is asked once and that is all.
    At most one line is logged, the race warning. *)
Theorem writes_ask_at_most_thrice (w : World S) (c id : string) (record : Obj) :
  let w1 := if truthy (obj_get "_id" record) then w else ticked w in
  let ins := Insert c (identified record (rng w))
               (obj_get "_id" (identified record (rng w))) in
  let ups := Upsert c (obj_set "_id" (JStr id) record) (Some (JStr id)) in
  (exists qs,
      issued (create c record w).1 = (issued w ++ qs)%list
      /\ (qs = [ins] \/ qs = [ins; CreateTableIfNotExists c]
          \/ qs = [ins; CreateTableIfNotExists c; ins])
      /\ (if missing_table (pool_query (pool w) ins).2 then True else qs = [ins])
      /\ (console (create c record w).1 = console w
          \/ console (create c record w).1 = (console w ++ [race_warning c])%list))
  /\ (exists qs,
        issued (update c id record true w).1 = (issued w ++ qs)%list
        /\ (qs = [ups] \/ qs = [ups; CreateTableIfNotExists c]
            \/ qs = [ups; CreateTableIfNotExists c; ups])
        /\ (if missing_table (pool_query (pool w) ups).2 then True else qs = [ups])
        /\ (console (update c id record true w).1 = console w
            \/ console (update c id record true w).1
               = (console w ++ [race_warning c])%list)
        /\ rng (update c id record true w).1 = rng w).
Proof.
  intros w1 ins ups. split.
  - pose proof (create_run w c record) as Hc. simpl in Hc. fold w1 in Hc. fold ins in Hc.
    rewrite Hc. clear Hc.
    destruct (provision_trace w1 c ins) as (qs & Hi & Hq & Hm & Hcons & _).
    assert (issued w1 = issued w /\ console w1 = console w /\ pool w1 = pool w)
      as (Ei & Ec & Ep) by (unfold w1; by destruct (truthy _)).
    rewrite Ei, Ec, Ep in *.
    exists qs. destruct (catch _ _ w1) as [w2 [ex | r]]; simpl in *; auto.
  - pose proof (update_upsert_run w c id record) as Hu. simpl in Hu. fold ups in Hu.
    rewrite Hu. clear Hu.
    destruct (provision_trace w c ups) as (qs & Hi & Hq & Hm & Hcons & Hr).
    exists qs. destruct (catch _ _ w) as [w2 [ex | r]]; simpl in *; auto.
Qed.

(** X3: a missing-table rejection never leaves [getAll], [get] or
    [update] without upsert: whatever they raise does not carry the code
    42P01. *)
Theorem reads_never_raise_missing_table (w w' : World S) (c id : string)
    (record : Obj) (ex : Exn) :
  getAll c w = (w', inl ex) \/ get c id w = (w', inl ex)
  \/ update c id record false w = (w', inl ex) ->
  isMissingTableError ex = false.
Proof.
  pose proof (update_plain_run w c id record) as Hu. simpl in Hu.
  rewrite getAll_run, get_run, Hu. clear Hu.
  intros [H | [H | H]]; revert H;
    destruct (pool_query _ _) as [s1 [e | r]]; simpl;
    try (destruct (code_is "42P01" (code e)) eqn:E; intros [= <- <-]; done);
    try (destruct (rowCount r) as [[|n]|]; try destruct (rows r);
         intros [= <- <-]; done);
    try (intros [= <- <-]; done).
Qed.

(** X4: [update] with upsert and [delete] raise nothing of their own: what
    they raise is a rejection of the pool, as it came.  In particular a
    uniqueness violation on an upsert is not turned into a validation
    error, and no not-found error is raised. *)
Theorem upsert_and_delete_raise_pool_errors (w w' : World S) (c id : string)
    (record : Obj) (ex : Exn) :
  update c id record true w = (w', inl ex) \/ delete c id w = (w', inl ex) ->
  exists e, ex = PgFail e.
Proof.
  pose proof (update_upsert_run w c id record) as Hu. simpl in Hu.
  rewrite Hu, delete_run, provision_run. clear Hu.
  intros [H | H]; revert H.
  - destruct (pool_query (pool w) _) as [s1 [e1 | r1]]; simpl;
      [destruct (code_is "42P01" (code e1)); simpl|]; try (intros [= <- <-]; eauto).
    destruct (pool_query s1 _) as [s2 [e2 | r2]];
      destruct (pool_query s2 _) as [s3 [e3 | r3]]; simpl;
      try destruct (code_is "23505" (code e2)); simpl; intros [= <- <-]; eauto.
  - destruct (pool_query (pool w) _) as [s1 [e1 | r1]]; simpl; intros [= <- <-]; eauto.
Qed.

(** X5: [getUserData] has no missing-table recovery: when its first query
    is rejected, whatever the code, it raises that rejection as it came and
    asks nothing more. *)
Theorem getUserData_no_recovery (w : World S) (u : string) (s1 : S) (e : PgError) :
  pool_query (pool w) (SelectGroups (dquote ++ u ++ dquote)) = (s1, inl e) ->
  getUserData u w = (asked w s1 [SelectGroups (dquote ++ u ++ dquote)], inl (PgFail e)).
Proof.
  intros Hq. unfold getUserData. unfold bind at 1. by rewrite query_run, Hq.
Qed.

End Traces.

Lemma reads_never_raise_missing_table_witness :
  isMissingTableError
    (PgFail {| code := Some "57P01"; message := "terminating connection" |}) = false.
Proof.
  apply (reads_never_raise_missing_table
           (Sample.start
              ([inl {| code := Some "57P01"; message := "terminating connection" |}]
                 : Script.Answers))
           (asked (Sample.start
                     ([inl {| code := Some "57P01"; message := "terminating connection" |}]
                        : Script.Answers)) [] [SelectAll "users"])
           "users" "7" []).
  left. reflexivity.
Defined.

Lemma upsert_and_delete_raise_pool_errors_witness :
  exists e, PgFail {| code := Some "23505"; message := "duplicate key value" |} = PgFail e.
Proof.
  apply (upsert_and_delete_raise_pool_errors
           (Sample.start
              ([inl {| code := Some "23505"; message := "duplicate key value" |}]
                 : Script.Answers))
           (asked (Sample.start
                     ([inl {| code := Some "23505"; message := "duplicate key value" |}]
                        : Script.Answers)) []
              [Upsert "users" [("_id", JStr "7")] (Some (JStr "7"))])
           "users" "7" []).
  left. reflexivity.
Defined.

Lemma getUserData_no_recovery_witness :
  getUserData "u1" (Sample.start (∅ : Pg.DB))
  = (asked (Sample.start ∅) ∅ [SelectGroups (dquote ++ "u1" ++ dquote)],
     inl (PgFail (Pg.undefined_table "groups"))).
Proof.
  apply (getUserData_no_recovery (Sample.start (∅ : Pg.DB)) "u1" ∅
           (Pg.undefined_table "groups")).
  reflexivity.
Defined.

(** ** Properties of the pool that the methods keep *)

Section Preservation.
Context {S : Type} {P : Pool S} {U : Uuid} {J : JsonText}.
Variable I : S -> Prop.













End Preservation.






(** ** Reading back what was written, on the engine *)


















(** X12: on the engine [deleteAll] succeeds and leaves no table, so that
    right after it, for every collection, [getAll] returns the empty
    sequence, [get] raises not-found and [delete] raises the missing-table
    rejection. *)
Theorem deleteAll_then_reads (w : World Pg.DB) (c id : string) :
  deleteAll w = (asked w ∅ [DropAllTables], inr tt)
  /\ (getAll c (deleteAll w).1).2 = inr []
  /\ (get c id (deleteAll w).1).2 = inl (not_found id c)
  /\ (delete c id (deleteAll w).1).2 = inl (PgFail (Pg.undefined_table c)).
Proof.
  rewrite deleteAll_run. split; [reflexivity|]. simpl.
  rewrite getAll_run, get_run, delete_run. engine. simpl.
  rewrite lookup_empty. done.
Qed.

(** ** More on [getUserData], on the engine *)

Lemma getUserData_on_engine (J : JsonText) (w w' : World Pg.DB) (u : string)
    (G R Pm : Pg.Table) (res : UserData) :
  pool w !! "groups" = Some G ->
  pool w !! "roles" = Some R ->
  pool w !! "permissions" = Some Pm ->
  Pg.jsonb_string (dquote ++ u ++ dquote) = Some u ->
  getUserData u w = (w', inr res) ->
  exists parsed1 parsed2 : list Json,
    let mine := List.filter (fun r : string * Obj => Pg.contains_string "members" u r.2) G in
    let granted :=
      List.filter (fun r : string * Obj =>
                     Pg.contains_string "users" u r.2
                     || Pg.any_id (fold_left concat_js parsed1 []) r.1) R in
    (forall g rs, g ∈ mine -> obj_get "roles" g.2 = Some (JArr rs) -> JArr rs ∈ parsed1)
    /\ (forall r ps, r ∈ granted -> obj_get "permissions" r.2 = Some (JArr ps) ->
                    JArr ps ∈ parsed2)
    /\ groups res = map (fun r => {| _id := Some (Pg.arrow_text "_id" r.2);
                                     name := Some (Pg.arrow_text "name" r.2) |}) mine
    /\ roles res = map (fun r => Some (Pg.arrow_text "name" r.2)) granted
    /\ permissions res
       = map (fun r => Some (Pg.arrow_text "name" r.2))
           (List.filter (fun r : string * Obj =>
                           Pg.any_id (fold_left concat_js parsed2 []) r.1) Pm).
Proof.
  intros HG HR HP Hu Hrun.
  unfold getUserData in Hrun. unfold bind at 1 in Hrun. rewrite query_run in Hrun.
  engine. rewrite HG, Hu in Hrun. cbn [fst snd settle] in Hrun.
  unfold bind at 1 in Hrun.
  match type of Hrun with
  | context [mapM ?f ?xs ?w0] => destruct (mapM f xs w0) as [w1 [ex | parsed1]] eqn:Hp1
  end; [discriminate|].
  apply mapM_parse_inv in Hp1 as [-> Hparsed1].
  unfold bind at 1 in Hrun. rewrite query_run in Hrun.
  unfold asked in Hrun. cbn [pool issued console rng] in Hrun.
  engine. rewrite HR, Hu in Hrun. cbn [fst snd settle] in Hrun.
  unfold bind at 1 in Hrun.
  match type of Hrun with
  | context [mapM ?f ?xs ?w0] => destruct (mapM f xs w0) as [w2 [ex | parsed2]] eqn:Hp2
  end; [discriminate|].
  apply mapM_parse_inv in Hp2 as [-> Hparsed2].
  unfold bind at 1 in Hrun. rewrite query_run in Hrun.
  unfold asked in Hrun. cbn [pool issued console rng] in Hrun.
  engine. rewrite HP in Hrun. cbn [fst snd settle] in Hrun.
  unfold ret in Hrun. injection Hrun as _ <-.
  exists parsed1, parsed2. cbn [groups roles permissions Pg.selected rows].
  split; [|split; [|split; [|split]]].
  - intros g rs Hg Hrs. apply (Hparsed1 (Pg.group_row g)).
    + apply list_elem_of_fmap. by exists g.
    + simpl. by rewrite (arrow_text_array _ _ _ Hrs).
  - intros r ps Hr Hps. apply (Hparsed2 (Pg.role_row r)).
    + apply list_elem_of_fmap. by exists r.
    + simpl. by rewrite (arrow_text_array _ _ _ Hps).
  - by rewrite map_map.
  - by rewrite map_map.
  - by rewrite map_map.
Qed.

(** X13: on the engine, when [getUserData] returns: the groups are the
    groups whose [members] array holds the user, in table order, each with
    its [_id] and [name]; a role whose [users] array holds the user is
    returned although no group lists it; and the permissions hold the name
    of every permission record that role lists. *)
Theorem getUserData_direct_role (J : JsonText) (w w' : World Pg.DB) (u rid : string)
    (G R Pm : Pg.Table) (rdoc : Obj) (res : UserData) :
  pool w !! "groups" = Some G ->
  pool w !! "roles" = Some R ->
  pool w !! "permissions" = Some Pm ->
  Pg.jsonb_string (dquote ++ u ++ dquote) = Some u ->
  (rid, rdoc) ∈ R ->
  Pg.contains_string "users" u rdoc = true ->
  getUserData u w = (w', inr res) ->
  groups res
  = map (fun r => {| _id := Some (Pg.arrow_text "_id" r.2);
                     name := Some (Pg.arrow_text "name" r.2) |})
      (List.filter (fun r : string * Obj => Pg.contains_string "members" u r.2) G)
  /\ Some (Pg.arrow_text "name" rdoc) ∈ roles res
  /\ (forall ps pid pdoc,
        obj_get "permissions" rdoc = Some (JArr ps) ->
        JStr pid ∈ ps ->
        (pid, pdoc) ∈ Pm ->
        Some (Pg.arrow_text "name" pdoc) ∈ permissions res).
Proof.
  intros HG HR HP Hu Hrole Huser Hrun.
  destruct (getUserData_on_engine J w w' u G R Pm res HG HR HP Hu Hrun)
    as (parsed1 & parsed2 & _ & Hp2 & Hgroups & Hroles & Hperms).
  simpl in *.
  assert ((rid, rdoc) ∈
            List.filter (fun r : string * Obj =>
                           Pg.contains_string "users" u r.2
                           || Pg.any_id (fold_left concat_js parsed1 []) r.1) R) as Hkept.
  { apply elem_of_filter_bool. split; [done|]. simpl. by rewrite Huser. }
  split; [exact Hgroups|]. split.
  - rewrite Hroles. apply list_elem_of_fmap. by exists (rid, rdoc).
  - intros ps pid pdoc Hps Hpid Hperm. rewrite Hperms.
    apply list_elem_of_fmap. exists (pid, pdoc). split; [done|].
    apply elem_of_filter_bool. split; [done|]. simpl. apply any_id_listed.
    apply (concat_js_flat _ _ ps); [|done]. by apply (Hp2 (rid, rdoc)).
Qed.

Lemma getUserData_direct_role_witness :
  groups Sample.u7_data = []
  /\ Some (Pg.arrow_text "name" Sample.auditor) ∈ roles Sample.u7_data
  /\ (forall ps pid pdoc,
        obj_get "permissions" Sample.auditor = Some (JArr ps) ->
        JStr pid ∈ ps ->
        (pid, pdoc) ∈ Sample.auth_permissions ->
        Some (Pg.arrow_text "name" pdoc) ∈ permissions Sample.u7_data).
Proof.
  refine (getUserData_direct_role _ (Sample.start Sample.direct_store)
            (getUserData "u7" (Sample.start Sample.direct_store)).1 "u7" "r9"
            [] [("r9", Sample.auditor)] Sample.auth_permissions Sample.auditor
            Sample.u7_data eq_refl eq_refl eq_refl eq_refl _ eq_refl _).
  - apply list_elem_of_here.
  - vm_compute. reflexivity.
Defined.

Lemma filter_none {A} (f : A -> bool) (l : list A) :
  Forall (fun x => f x = false) l -> List.filter f l = [].
Proof.
  induction 1 as [|x l Hx _ IH]; simpl; [done|]. by rewrite Hx.
Qed.

(** X14: on the engine, for a user that no group has as a member and no
    role lists, with the three tables in place, [getUserData] returns three
    empty sequences after its three queries, the last two with empty
    identifier lists. *)
Theorem getUserData_no_memberships (J : JsonText) (w : World Pg.DB) (u : string)
    (G R Pm : Pg.Table) :
  pool w !! "groups" = Some G ->
  pool w !! "roles" = Some R ->
  pool w !! "permissions" = Some Pm ->
  Pg.jsonb_string (dquote ++ u ++ dquote) = Some u ->
  Forall (fun r : string * Obj => Pg.contains_string "members" u r.2 = false) G ->
  Forall (fun r : string * Obj => Pg.contains_string "users" u r.2 = false) R ->
  getUserData u w
  = (asked w (pool w)
       [SelectGroups (dquote ++ u ++ dquote); SelectRoles (dquote ++ u ++ dquote) [];
        SelectPermissions []],
     inr {| groups := []; roles := []; permissions := [] |}).
Proof.
  intros HG HR HP Hu HnoG HnoR.
  unfold getUserData. unfold bind at 1. rewrite query_run.
  engine. rewrite HG, Hu. cbn [fst snd settle rows Pg.selected].
  rewrite (filter_none _ _ HnoG). cbn [map mapM]. unfold ret at 1, bind at 1.
  unfold bind at 1. rewrite query_run. unfold asked. cbn [pool issued console rng].
  engine. rewrite HR, Hu. cbn [fst snd settle rows Pg.selected fold_left].
  assert (List.filter (fun r : string * Obj =>
                         Pg.contains_string "users" u r.2 || Pg.any_id [] r.1) R = [])
    as ->.
  { apply filter_none. eapply Forall_impl; [exact HnoR|].
    intros r Hr. simpl in *. by rewrite Hr. }
  cbn [map mapM]. unfold ret at 1, bind at 1.
  unfold bind at 1. rewrite query_run. cbn [pool issued console rng].
  engine. rewrite HP. cbn [fst snd settle rows Pg.selected fold_left].
  assert (List.filter (fun r : string * Obj => Pg.any_id [] r.1) Pm = []) as ->.
  { apply filter_none. by apply Forall_forall. }
  unfold ret, asked. simpl. by rewrite <- !app_assoc.
Qed.

Lemma getUserData_no_memberships_witness :
  getUserData "u3" (Sample.start Sample.auth_store)
  = (asked (Sample.start Sample.auth_store) Sample.auth_store
       [SelectGroups (dquote ++ "u3" ++ dquote); SelectRoles (dquote ++ "u3" ++ dquote) [];
        SelectPermissions []],
     inr {| groups := []; roles := []; permissions := [] |}).
Proof.
  refine (getUserData_no_memberships _ (Sample.start Sample.auth_store) "u3"
            Sample.auth_groups Sample.auth_roles Sample.auth_permissions
            eq_refl eq_refl eq_refl eq_refl _ _).
  - repeat constructor.
  - repeat constructor.
Defined.
